(** * AgentGridWatch feeder registry

    A shallow embedding of [agent_grid_watch/agent.py]: the feeder codec
    ([Feeder.to_dict], [Feeder.from_dict]), the process-wide store [_memory]
    with its persistence hook [_save_memory], the four registry
    operations built on them, and the two city lookups [get_weather] and
    [get_current_time].

    The store is what [json.load] produces: a mapping from string keys to
    arbitrary JSON values.  Python raises where a value has the wrong shape,
    so every operation yields an [outcome]: it either returns a value or
    raises an exception, and in both cases hands back the state it left. *)

From Stdlib Require Import ZArith String List Bool.
From Stdlib Require Import Floats.SpecFloat.
From stdpp Require Import base option list gmap strings pretty.
Import ListNotations.

Set Warnings "-register-all".
Local Open Scope string_scope.
Local Open Scope list_scope.

(** ** Python values *)

(** The values [json.load] can build.  Dictionaries keep insertion order, as
    Python's do; a float is its IEEE-754 content; a text is held as its
    UTF-8 bytes. *)
Inductive json : Type :=
| JNull
| JBool (b : bool)
| JInt (n : Z)
| JFloat (x : spec_float)
| JStr (s : string)
| JList (xs : list json)
| JDict (kvs : list (string * json)).

(** [d[k]] on the entries of a dictionary. *)
Fixpoint dict_get (k : string) (kvs : list (string * json)) : option json :=
  match kvs with
  | [] => None
  | (k', v) :: rest => if decide (k = k') then Some v else dict_get k rest
  end.

(** [bool(v)], the test behind [if v:]. *)
Definition truthy (v : json) : bool :=
  match v with
  | JNull => false
  | JBool b => b
  | JInt n => negb (n =? 0)%Z
  | JFloat (S754_zero _) => false
  | JFloat _ => true
  | JStr s => negb (bool_decide (s = ""))
  | JList xs => negb (bool_decide (xs = []))
  | JDict kvs => negb (bool_decide (kvs = []))
  end.

(** ** Exceptions *)

Inductive exn : Type :=
| KeyError (key : string)
| TypeError
| AttributeError.

Inductive outcome (A : Type) : Type :=
| Returns (a : A)
| Raises (e : exn).
Arguments Returns {A} a.
Arguments Raises {A} e.

(** Sequencing: the first exception raised ends the computation. *)
#[global] Instance outcome_bind : MBind outcome := fun A B k x =>
  match x with
  | Returns a => k a
  | Raises e => Raises e
  end.

Definition returns {A : Type} (x : outcome A) : bool :=
  match x with
  | Returns _ => true
  | Raises _ => false
  end.

(** [data[k]] with a string subscript: only a dictionary accepts it. *)
Definition subscript (data : json) (k : string) : outcome json :=
  match data with
  | JDict kvs =>
      match dict_get k kvs with
      | Some v => Returns v
      | None => Raises (KeyError k)
      end
  | _ => Raises TypeError
  end.

(** [data.get(k)]: a missing key reads as [None]. *)
Definition get_method (data : json) (k : string) : outcome json :=
  match data with
  | JDict kvs => Returns (default JNull (dict_get k kvs))
  | _ => Raises AttributeError
  end.

(** [l.append(x)]. *)
Definition append_method (l x : json) : outcome json :=
  match l with
  | JList xs => Returns (JList (xs ++ [x]))
  | _ => Raises AttributeError
  end.

(** A byte [10xxxxxx], which goes on with the character begun before it. *)
Definition is_continuation (c : Ascii.ascii) : bool :=
  let n := Ascii.nat_of_ascii c in (128 <=? n)%nat && (n <? 192)%nat.

(** The characters of a text, each a text of its own: a byte opens a
    character unless it is a continuation byte, which joins the bytes
    before it. *)
Fixpoint characters (s : string) : list string :=
  match s with
  | EmptyString => []
  | String b rest =>
      match characters rest with
      | String c cs :: more =>
          if is_continuation c then String b (String c cs) :: more
          else String b EmptyString :: String c cs :: more
      | more => String b EmptyString :: more
      end
  end.

(** The items a [for] loop draws from a value: the elements of a list, the
    characters of a text, the keys of a dictionary. *)
Definition iterate (v : json) : outcome (list json) :=
  match v with
  | JList xs => Returns xs
  | JStr s => Returns (map JStr (characters s))
  | JDict kvs => Returns (map (fun kv => JStr (fst kv)) kvs)
  | _ => Raises TypeError
  end.

(** ** The Feeder class *)

Record Feeder : Type := mkFeeder {
  feeder_id : json;
  name : json;
  location : json;
  configuration : json
}.

Definition to_dict (self : Feeder) : json :=
  JDict [("feeder_id", feeder_id self);
         ("name", name self);
         ("location", location self);
         ("configuration", configuration self)].

Definition from_dict (data : json) : outcome Feeder :=
  i ← subscript data "feeder_id";
  n ← subscript data "name";
  l ← subscript data "location";
  c ← get_method data "configuration";
  Returns (mkFeeder i n l c).

(** ** The store *)

(** [_memory] together with the snapshots handed to [json.dump], oldest
    first.  [_save_memory] swallows every I/O failure, so the log records
    the attempts and nothing of what reached the disk. *)
Record state : Type := mkState {
  _memory : gmap string json;
  dumps : list (gmap string json)
}.

Definition empty_state : state := mkState ∅ [].

Definition _save_memory (st : state) : state :=
  mkState (_memory st) (dumps st ++ [_memory st]).

(** [_memory[k] = v]. *)
Definition memory_set (k : string) (v : json) (st : state) : state :=
  mkState (<[k := v]> (_memory st)) (dumps st).

(** [_memory.get(k)]. *)
Definition memory_get (st : state) (k : string) : json :=
  default JNull (_memory st !! k).

(** [k in _memory]. *)
Definition memory_has (st : state) (k : string) : bool :=
  bool_decide (is_Some (_memory st !! k)).

(** ** Results of the operations *)

Definition success (report : json) : json :=
  JDict [("status", JStr "success"); ("report", report)].

Definition error (error_message : string) : json :=
  JDict [("status", JStr "error"); ("error_message", JStr error_message)].

Definition already_exists (feeder_id : string) : string :=
  "Feeder ID '" +:+ feeder_id +:+ "' already exists.".

Definition not_found (feeder_id : string) : string :=
  "Feeder ID '" +:+ feeder_id +:+ "' not found.".

Section Registry.

(** [repr] of the values whose text Python computes from their content
    (floats and containers); an f-string falls back on it for them. *)
Variable py_repr : json -> string.

(** [f"{v}"]. *)
Definition py_str (v : json) : string :=
  match v with
  | JStr s => s
  | JNull => "None"
  | JBool true => "True"
  | JBool false => "False"
  | JInt n => pretty n
  | JFloat _ | JList _ | JDict _ => py_repr v
  end.

Definition _get_feeder_memory_key (feeder_id : json) : string :=
  "feeder:" +:+ py_str feeder_id.

Definition _get_all_feeders_key : string := "all_feeders".

(** ** Registry operations *)

Definition register_feeder (feeder_id feeder_name feeder_location : string)
    (configuration : json) (st : state) : outcome json * state :=
  let memory_key := _get_feeder_memory_key (JStr feeder_id) in
  if memory_has st memory_key then
    (Returns (error (already_exists feeder_id)), st)
  else
    let feeder :=
      mkFeeder (JStr feeder_id) (JStr feeder_name) (JStr feeder_location) configuration in
    let st := _save_memory (memory_set memory_key (to_dict feeder) st) in
    let all_feeders_key := _get_all_feeders_key in
    let all_feeder_ids := memory_get st all_feeders_key in
    let all_feeder_ids :=
      match all_feeder_ids with
      | JNull => JList []
      | _ => all_feeder_ids
      end in
    match append_method all_feeder_ids (JStr feeder_id) with
    | Raises e => (Raises e, st)
    | Returns all_feeder_ids =>
        let st := _save_memory (memory_set all_feeders_key all_feeder_ids st) in
        (Returns (success (to_dict feeder)), st)
    end.

(** The body of the [for] loop of [get_registered_feeders], with the list
    [feeders] built so far. *)
Fixpoint collect_feeders (st : state) (ids : list json) (feeders : list json)
    : outcome (list json) :=
  match ids with
  | [] => Returns feeders
  | feeder_id :: rest =>
      let memory_key := _get_feeder_memory_key feeder_id in
      let feeder_data := memory_get st memory_key in
      if truthy feeder_data then
        f ← from_dict feeder_data;
        collect_feeders st rest (feeders ++ [to_dict f])
      else collect_feeders st rest feeders
  end.

Definition get_registered_feeders (st : state) : outcome json * state :=
  let all_feeders_key := _get_all_feeders_key in
  let all_feeder_ids := memory_get st all_feeders_key in
  match all_feeder_ids with
  | JNull => (Returns (success (JList [])), st)
  | _ =>
      (ids ← iterate all_feeder_ids;
       feeders ← collect_feeders st ids [];
       Returns (success (JList feeders)), st)
  end.

Definition get_feeder_health (feeder_id : string) (st : state) : outcome json * state :=
  let memory_key := _get_feeder_memory_key (JStr feeder_id) in
  if negb (memory_has st memory_key) then
    (Returns (error (not_found feeder_id)), st)
  else
    let health_status := "Operational and healthy." in
    (Returns (success (JStr health_status)), st).

Definition get_feeder_alerts (feeder_id : string) (st : state) : outcome json * state :=
  let memory_key := _get_feeder_memory_key (JStr feeder_id) in
  if negb (memory_has st memory_key) then
    (Returns (error (not_found feeder_id)), st)
  else
    let alerts_key := "alerts:" +:+ feeder_id in
    let alerts := memory_get st alerts_key in
    let alerts :=
      match alerts with
      | JNull => JList []
      | _ => alerts
      end in
    (Returns (success alerts), st).

(** ** Calls and runs *)

(** One call of a registry operation, as the agent issues it. *)
Inductive call : Type :=
| Register (feeder_id feeder_name feeder_location : string) (configuration : json)
| ListFeeders
| Health (feeder_id : string)
| Alerts (feeder_id : string).

Definition exec (c : call) (st : state) : outcome json * state :=
  match c with
  | Register i n l cfg => register_feeder i n l cfg st
  | ListFeeders => get_registered_feeders st
  | Health i => get_feeder_health i st
  | Alerts i => get_feeder_alerts i st
  end.

(** The state a sequence of calls leaves; a call that raises leaves the
    state it had reached, and the next call starts from there. *)
Fixpoint run (cs : list call) (st : state) : state :=
  match cs with
  | [] => st
  | c :: rest => run rest (exec c st).2
  end.

(** ** Shapes of the store *)

(** What the store holds for an id of the index. *)
Definition stored (st : state) (feeder_id : json) : json :=
  memory_get st (_get_feeder_memory_key feeder_id).

(** A value the listing loop gets past: skipped as falsy, or decoded. *)
Definition readable (v : json) : bool :=
  negb (truthy v) || returns (from_dict v).

(** The record the listing reports for a stored value: its fields read by
    [from_dict] and written back by [to_dict]. *)
Definition listed (v : json) : json :=
  match from_dict v with
  | Returns f => to_dict f
  | Raises _ => JNull
  end.

(** What the listing reports for a sequence of ids: the truthy stored values,
    in the order of the ids, each in its listed form. *)
Definition report_of (st : state) (ids : list json) : list json :=
  map (fun i => listed (stored st i)) (List.filter (fun i => truthy (stored st i)) ids).

(** The ids the listing walks through, when the index can be walked. *)
Definition index_ids (st : state) : option (list json) :=
  match memory_get st _get_all_feeders_key with
  | JNull => Some []
  | v =>
      match iterate v with
      | Returns ids => Some ids
      | Raises _ => None
      end
  end.

(** The index can be walked and every record it leads to is readable. *)
Definition listable (st : state) : bool :=
  match index_ids st with
  | Some ids => forallb (fun i => readable (stored st i)) ids
  | None => false
  end.

(** What holds of every store the registry builds from the fresh one: the
    index, once there, lists distinct ids, each with a record written by
    [to_dict]. *)
Definition registry_inv (st : state) : Prop :=
  exists names : list string,
    (_memory st !! _get_all_feeders_key = None /\ names = []
     \/ _memory st !! _get_all_feeders_key = Some (JList (map JStr names)))
    /\ NoDup names
    /\ Forall (fun s => exists f,
          _memory st !! _get_feeder_memory_key (JStr s) = Some (to_dict f)) names.

(** The index is missing, null or a list: an id can be appended to it. *)
Definition appendable (st : state) : bool :=
  match memory_get st _get_all_feeders_key with
  | JNull | JList _ => true
  | _ => false
  end.

(** The ids of the index when it is a list, none otherwise. *)
Definition index_list (st : state) : list json :=
  match memory_get st _get_all_feeders_key with
  | JList ids => ids
  | _ => []
  end.

(** ** Sample stores *)

(** A text for floats and containers in the closed examples; none of them
    formats such a value. *)
Definition plain_repr (v : json) : string := "".

Definition f1_config : json := JDict [("rate", JInt 5)].

Definition f1_record : json :=
  JDict [("feeder_id", JStr "f1"); ("name", JStr "Feeder One");
         ("location", JStr "Loc A"); ("configuration", f1_config)].

(** The store after [register_feeder("f1", "Feeder One", "Loc A", {"rate": 5})]
    on a fresh one. *)
Definition f1_memory : gmap string json :=
  <["all_feeders" := JList [JStr "f1"]]> (<["feeder:f1" := f1_record]> ∅).

Definition f1_state : state :=
  mkState f1_memory [<["feeder:f1" := f1_record]> ∅; f1_memory].

(** A file written under an older layout: the record of [a] has no
    [location]. *)
Definition legacy_record : json :=
  JDict [("feeder_id", JStr "a"); ("name", JStr "Feeder A")].

Definition legacy_state : state :=
  mkState (<["all_feeders" := JList [JStr "a"]]> (<["feeder:a" := legacy_record]> ∅)) [].

(** An index that names [ghost], which has no record. *)
Definition ghost_state : state :=
  mkState (<["all_feeders" := JList [JStr "ghost"; JStr "f1"]]>
             (<["feeder:f1" := f1_record]> ∅)) [].

Definition ghost_legacy_state : state :=
  mkState (<["all_feeders" := JList [JStr "ghost"; JStr "a"]]>
             (<["feeder:a" := legacy_record]> ∅)) [].

(** A record stored without its optional [configuration]. *)
Definition bare_record : json :=
  JDict [("feeder_id", JStr "a"); ("name", JStr "Feeder A"); ("location", JStr "Loc A")].

Definition bare_state : state :=
  mkState (<["all_feeders" := JList [JStr "a"]]> (<["feeder:a" := bare_record]> ∅)) [].

(** A store whose index is not a list: the file held a mapping there. *)
Definition odd_index_state : state :=
  mkState (<["all_feeders" := JDict []]> ∅) [].

(** A record holding an empty mapping, under an index that names it. *)
Definition hollow_state : state :=
  mkState (<["all_feeders" := JList [JStr "z"]]> (<["feeder:z" := JDict []]> ∅)) [].

(** A lowering of texts beyond ASCII for the closed examples; none of them
    holds such a text. *)
Definition plain_lower (s : string) : string := s.

(** ** Histories *)

(** The registrations of a run that find their id free, oldest first, each
    with the record it writes; [seen] holds the ids taken before. *)
Fixpoint first_registrations (seen : list string) (cs : list call)
    : list (string * json) :=
  match cs with
  | [] => []
  | Register i n l c :: rest =>
      if bool_decide (i ∈ seen) then first_registrations seen rest
      else (i, to_dict (mkFeeder (JStr i) (JStr n) (JStr l) c))
             :: first_registrations (i :: seen) rest
  | _ :: rest => first_registrations seen rest
  end.

(** The memory in step with the disk: the last dump is the memory. *)
Definition dumped (st : state) : Prop :=
  last (dumps st) = Some (_memory st).

(** The store holds the registrations [regs] and no other feeder: the index
    lists their ids in order, each id has its record, and no other id has
    one. *)
Definition holds_registrations (st : state) (regs : list (string * json)) : Prop :=
  (_memory st !! _get_all_feeders_key = None /\ regs = []
   \/ _memory st !! _get_all_feeders_key = Some (JList (map (fun r => JStr r.1) regs)))
  /\ NoDup (map fst regs)
  /\ Forall (fun r => _memory st !! _get_feeder_memory_key (JStr r.1) = Some r.2
                      /\ exists f, r.2 = to_dict f) regs
  /\ (forall i, is_Some (_memory st !! _get_feeder_memory_key (JStr i)) ->
        In i (map fst regs)).

(** A record of the four fields, as [to_dict] lays them out. *)
Definition four_fields (v : json) : Prop :=
  exists a n l c,
    v = JDict [("feeder_id", a); ("name", n); ("location", l); ("configuration", c)].

(** ** Weather and time *)

Definition is_ascii (c : Ascii.ascii) : bool := (Ascii.nat_of_ascii c <? 128)%nat.

Definition ascii_lower (c : Ascii.ascii) : Ascii.ascii :=
  let n := Ascii.nat_of_ascii c in
  if (65 <=? n)%nat && (n <=? 90)%nat then Ascii.ascii_of_nat (n + 32) else c.

(** [str.lower()] on a text that has characters beyond ASCII. *)
Variable wide_lower : string -> string.

(** [s.lower()]: on an ASCII text, the letters [A] to [Z] go to [a] to [z]. *)
Definition str_lower (s : string) : string :=
  if forallb is_ascii (list_ascii_of_string s)
  then string_of_list_ascii (map ascii_lower (list_ascii_of_string s))
  else wide_lower s.

Definition get_weather (city : string) : json :=
  if bool_decide (str_lower city = "new york") then
    success (JStr
      "The weather in New York is sunny with a temperature of 25 degrees Celsius (41 degrees Fahrenheit).")
  else
    error ("Weather information for '" +:+ city +:+ "' is not available.").

(** [now] is what [datetime.now(ZoneInfo("America/New_York"))], formatted
    by [strftime], yields: a text, or the exception of a missing zone. *)
Definition get_current_time (now : outcome string) (city : string) : outcome json :=
  if bool_decide (str_lower city = "new york") then
    t ← now;
    Returns (success (JStr ("The current time in " +:+ city +:+ " is " +:+ t)))
  else
    Returns (error ("Sorry, I don't have timezone information for " +:+ city +:+ ".")).

(** ** Keys *)

Lemma feeder_key_str (i : string) :
  _get_feeder_memory_key (JStr i) = "feeder:" +:+ i.
Proof. reflexivity. Qed.

Lemma feeder_key_inj (i j : string) :
  _get_feeder_memory_key (JStr i) = _get_feeder_memory_key (JStr j) -> i = j.
Proof. rewrite !feeder_key_str. simpl. intros H. by simplify_eq. Qed.

Lemma feeder_key_not_index (i : json) :
  _get_feeder_memory_key i <> _get_all_feeders_key.
Proof. unfold _get_feeder_memory_key, _get_all_feeders_key. simpl. discriminate. Qed.

Lemma alerts_key_not_feeder (a : string) (i : json) :
  "alerts:" +:+ a <> _get_feeder_memory_key i.
Proof. unfold _get_feeder_memory_key. simpl. discriminate. Qed.

Lemma alerts_key_not_index (a : string) :
  "alerts:" +:+ a <> _get_all_feeders_key.
Proof. unfold _get_all_feeders_key. simpl. discriminate. Qed.

Lemma memory_has_true (st : state) (k : string) :
  memory_has st k = true <-> is_Some (_memory st !! k).
Proof. unfold memory_has. apply bool_decide_eq_true. Qed.

Lemma memory_has_false (st : state) (k : string) :
  memory_has st k = false <-> _memory st !! k = None.
Proof.
  unfold memory_has. rewrite bool_decide_eq_false.
  split; [apply eq_None_not_Some | intros ->; apply is_Some_None].
Qed.

(** ** The codec *)

Lemma from_dict_to_dict (f : Feeder) : from_dict (to_dict f) = Returns f.
Proof. by destruct f. Qed.

Lemma truthy_to_dict (f : Feeder) : truthy (to_dict f) = true.
Proof. reflexivity. Qed.

Lemma readable_to_dict (f : Feeder) : readable (to_dict f) = true.
Proof. unfold readable. by rewrite from_dict_to_dict, orb_true_r. Qed.

Lemma listed_to_dict (f : Feeder) : listed (to_dict f) = to_dict f.
Proof. unfold listed. by rewrite from_dict_to_dict. Qed.

Lemma from_dict_missing (kvs : list (string * json)) :
  dict_get "feeder_id" kvs = None \/ dict_get "name" kvs = None
    \/ dict_get "location" kvs = None ->
  exists k, from_dict (JDict kvs) = Raises (KeyError k)
            /\ In k ["feeder_id"; "name"; "location"] /\ dict_get k kvs = None.
Proof using.
  intros H. unfold from_dict. simpl.
  destruct (dict_get "feeder_id" kvs) as [i|] eqn:Hi; simpl;
    [|exists "feeder_id"; split; [done | split; [by left | done]]].
  destruct (dict_get "name" kvs) as [n|] eqn:Hn; simpl;
    [|exists "name"; split; [done | split; [by right; left | done]]].
  destruct (dict_get "location" kvs) as [l|] eqn:Hl; simpl;
    [|exists "location"; split; [done | split; [by right; right; left | done]]].
  destruct H as [H | [H | H]]; discriminate.
Qed.

Lemma from_dict_present (kvs : list (string * json)) (i n l : json) :
  dict_get "feeder_id" kvs = Some i -> dict_get "name" kvs = Some n ->
  dict_get "location" kvs = Some l ->
  from_dict (JDict kvs)
    = Returns (mkFeeder i n l (default JNull (dict_get "configuration" kvs))).
Proof. intros Hi Hn Hl. unfold from_dict. simpl. by rewrite Hi, Hn, Hl. Qed.

(** C7: [from_dict] raises [KeyError] on a mapping that lacks [feeder_id],
    [name] or [location] (naming a key that is absent); with these three
    present and no [configuration] it returns a feeder whose configuration is
    [None]; and [from_dict] after [to_dict] gives back the feeder, field for
    field. *)
Theorem from_dict_contract (kvs : list (string * json)) (f : Feeder) :
  (dict_get "feeder_id" kvs = None \/ dict_get "name" kvs = None
     \/ dict_get "location" kvs = None ->
   exists k, from_dict (JDict kvs) = Raises (KeyError k)
             /\ In k ["feeder_id"; "name"; "location"] /\ dict_get k kvs = None)
  /\ (forall i n l,
        dict_get "feeder_id" kvs = Some i -> dict_get "name" kvs = Some n ->
        dict_get "location" kvs = Some l -> dict_get "configuration" kvs = None ->
        from_dict (JDict kvs) = Returns (mkFeeder i n l JNull))
  /\ from_dict (to_dict f) = Returns f
  /\ to_dict f = JDict [("feeder_id", feeder_id f); ("name", name f);
                        ("location", location f); ("configuration", configuration f)].
Proof.
  split; [apply from_dict_missing|].
  split; [|split; [apply from_dict_to_dict | reflexivity]].
  intros i n l Hi Hn Hl Hc.
  rewrite (from_dict_present kvs i n l Hi Hn Hl). by rewrite Hc.
Qed.

(** ** Registration *)

Lemma register_feeder_taken (st : state) (i n l : string) (c : json) :
  memory_has st (_get_feeder_memory_key (JStr i)) = true ->
  register_feeder i n l c st = (Returns (error (already_exists i)), st).
Proof. intros H. unfold register_feeder. by rewrite H. Qed.

(** The state a registration leaves when the id is free and the index can
    take it: the record is written and dumped, then the index. *)
Lemma register_feeder_fresh (st : state) (i n l : string) (c : json) :
  _memory st !! _get_feeder_memory_key (JStr i) = None ->
  appendable st = true ->
  let rec := to_dict (mkFeeder (JStr i) (JStr n) (JStr l) c) in
  let m1 := <[_get_feeder_memory_key (JStr i) := rec]> (_memory st) in
  let m2 := <[_get_all_feeders_key := JList (index_list st ++ [JStr i])]> m1 in
  register_feeder i n l c st
    = (Returns (success rec), mkState m2 (dumps st ++ [m1] ++ [m2])).
Proof.
  intros Hfree Happ rec m1 m2.
  apply memory_has_false in Hfree as Hhas.
  unfold register_feeder. rewrite Hhas.
  unfold appendable, index_list in *. subst m2.
  unfold memory_get in *. cbn [_save_memory memory_set _memory dumps].
  rewrite lookup_insert_ne by apply feeder_key_not_index.
  destruct (_memory st !! _get_all_feeders_key) as [[]|]; simpl in *;
    try discriminate.
  all: unfold _save_memory, memory_set; simpl; by rewrite <- app_assoc.
Qed.

(** Whatever its outcome, a registration touches no key but the feeder's
    own and the index. *)
Lemma register_feeder_frame (st : state) (i n l : string) (c : json) (k : string) :
  k <> _get_feeder_memory_key (JStr i) -> k <> _get_all_feeders_key ->
  _memory (register_feeder i n l c st).2 !! k = _memory st !! k.
Proof.
  intros Hk Hall. unfold register_feeder.
  destruct (memory_has _ _); [done|].
  destruct (append_method _ _); cbn [snd _save_memory memory_set _memory];
    by rewrite ?lookup_insert_ne.
Qed.

(** After a registration, whatever its outcome, the feeder's key is taken. *)
Lemma register_feeder_takes (st : state) (i n l : string) (c : json) :
  memory_has (register_feeder i n l c st).2 (_get_feeder_memory_key (JStr i)) = true.
Proof.
  unfold register_feeder.
  destruct (memory_has st _) eqn:Hhas; [done|].
  apply memory_has_true.
  destruct (append_method _ _); cbn [snd _save_memory memory_set _memory].
  - rewrite lookup_insert_ne by (apply not_eq_sym, feeder_key_not_index).
    rewrite lookup_insert_eq. by eexists.
  - rewrite lookup_insert_eq. by eexists.
Qed.

Lemma register_feeder_writes (st : state) (i n l : string) (c : json) :
  _memory st !! _get_feeder_memory_key (JStr i) = None ->
  _memory (register_feeder i n l c st).2 !! _get_feeder_memory_key (JStr i)
    = Some (to_dict (mkFeeder (JStr i) (JStr n) (JStr l) c)).
Proof.
  intros Hfree. apply memory_has_false in Hfree.
  unfold register_feeder. rewrite Hfree.
  destruct (append_method _ _); cbn [snd _save_memory memory_set _memory].
  - rewrite lookup_insert_ne by (apply not_eq_sym, feeder_key_not_index).
    by rewrite lookup_insert_eq.
  - by rewrite lookup_insert_eq.
Qed.

(** C2: when [feeder:<id>] is in the store, [register_feeder] returns the
    error result "Feeder ID '<id>' already exists." and leaves the state as
    it was, memory and dumps alike.  Hence a second registration of an id,
    whatever the first one met, is rejected without a change, and the record
    under the id is still the one the first registration wrote. *)
Theorem register_feeder_rejects_duplicate (st : state) (i n l : string) (c : json) :
  (forall rec, _memory st !! _get_feeder_memory_key (JStr i) = Some rec ->
     register_feeder i n l c st = (Returns (error (already_exists i)), st)
     /\ already_exists i = "Feeder ID '" +:+ i +:+ "' already exists.")
  /\ (forall n' l' c',
        let st1 := (register_feeder i n l c st).2 in
        register_feeder i n' l' c' st1 = (Returns (error (already_exists i)), st1)
        /\ (_memory st !! _get_feeder_memory_key (JStr i) = None ->
            _memory st1 !! _get_feeder_memory_key (JStr i)
              = Some (to_dict (mkFeeder (JStr i) (JStr n) (JStr l) c)))).
Proof.
  split.
  - intros rec Hrec. split; [|reflexivity].
    apply register_feeder_taken, memory_has_true. by eexists.
  - intros n' l' c' st1. split.
    + apply register_feeder_taken, register_feeder_takes.
    + apply register_feeder_writes.
Qed.

(** C3: when [feeder:<id>] is not in the store, [get_feeder_health] and
    [get_feeder_alerts] both return the error result
    "Feeder ID '<id>' not found.", whatever else the store holds. *)
Theorem unregistered_feeder_not_found (st : state) (i : string) :
  _memory st !! _get_feeder_memory_key (JStr i) = None ->
  get_feeder_health i st = (Returns (error (not_found i)), st)
  /\ get_feeder_alerts i st = (Returns (error (not_found i)), st)
  /\ not_found i = "Feeder ID '" +:+ i +:+ "' not found.".
Proof.
  intros Hfree. apply memory_has_false in Hfree.
  unfold get_feeder_health, get_feeder_alerts. by rewrite Hfree.
Qed.

(** C9: the three read operations hand back the state they were given,
    memory and dumps, for every argument and every state, whether they
    return a success, return an error or raise. *)
Theorem reads_leave_state (st : state) (i : string) :
  (get_registered_feeders st).2 = st
  /\ (get_feeder_health i st).2 = st
  /\ (get_feeder_alerts i st).2 = st.
Proof.
  unfold get_registered_feeders, get_feeder_health, get_feeder_alerts.
  repeat split.
  - by destruct (memory_get st _).
  - by destruct (negb _).
  - by destruct (negb _).
Qed.

(** C10: a registration that returns a success changes no key of the store
    other than [feeder:<id>] and [all_feeders]: the records of the other
    feeders and every [alerts:<id>] entry are as before. *)
Theorem register_feeder_touches_two_keys
    (st st' : state) (i n l : string) (c report : json) :
  register_feeder i n l c st = (Returns (success report), st') ->
  (forall k, k <> _get_feeder_memory_key (JStr i) -> k <> _get_all_feeders_key ->
     _memory st' !! k = _memory st !! k)
  /\ (forall j, j <> i ->
        _memory st' !! _get_feeder_memory_key (JStr j)
          = _memory st !! _get_feeder_memory_key (JStr j))
  /\ (forall a, _memory st' !! ("alerts:" +:+ a) = _memory st !! ("alerts:" +:+ a)).
Proof.
  intros Hreg.
  assert (Hst : st' = (register_feeder i n l c st).2) by by rewrite Hreg.
  subst st'. repeat split.
  - intros k Hk Hall. by apply register_feeder_frame.
  - intros j Hj. apply register_feeder_frame; [|apply feeder_key_not_index].
    intros Heq. by apply feeder_key_inj in Heq.
  - intros a. apply register_feeder_frame;
      [apply alerts_key_not_feeder | apply alerts_key_not_index].
Qed.

(** ** The listing loop *)

Lemma collect_feeders_readable (st : state) (ids acc : list json) :
  forallb (fun i => readable (stored st i)) ids = true ->
  collect_feeders st ids acc = Returns (acc ++ report_of st ids).
Proof.
  unfold report_of. revert acc.
  induction ids as [|i ids IH]; intros acc Hok; simpl.
  - by rewrite app_nil_r.
  - simpl in Hok. apply andb_prop in Hok as [Hi Hids].
    fold (stored st i). unfold readable in Hi.
    destruct (truthy (stored st i)) eqn:Ht; simpl in *; [|by apply IH].
    unfold listed. destruct (from_dict (stored st i)) as [f|e]; [|discriminate].
    simpl. rewrite IH by done. by rewrite <- app_assoc.
Qed.

Lemma collect_feeders_unreadable (st : state) (ids acc : list json) :
  forallb (fun i => readable (stored st i)) ids = false ->
  exists e, collect_feeders st ids acc = Raises e.
Proof.
  revert acc. induction ids as [|i ids IH]; intros acc Hbad; simpl in *.
  - discriminate.
  - fold (stored st i). unfold readable in Hbad.
    destruct (truthy (stored st i)); simpl in *; [|by apply IH].
    destruct (from_dict (stored st i)) as [f|e]; simpl in *; [by apply IH|].
    by exists e.
Qed.

(** The loop looks at the store through the feeder keys only. *)
Lemma collect_feeders_ext (st st' : state) (ids acc : list json) :
  (forall i, stored st i = stored st' i) ->
  collect_feeders st ids acc = collect_feeders st' ids acc.
Proof.
  intros Hsame. revert acc.
  induction ids as [|i ids IH]; intros acc; simpl; [done|].
  fold (stored st i) (stored st' i). rewrite <- Hsame.
  destruct (truthy (stored st i)); [|apply IH].
  destruct (from_dict (stored st i)); simpl; [apply IH | done].
Qed.

(** An id without a record adds nothing and stops nothing. *)
Lemma collect_feeders_skip (st : state) (pre post acc : list json) (i : json) :
  _memory st !! _get_feeder_memory_key i = None ->
  collect_feeders st (pre ++ i :: post) acc = collect_feeders st (pre ++ post) acc.
Proof.
  intros Hnone. revert acc.
  induction pre as [|j pre IH]; intros acc; simpl.
  - unfold memory_get. by rewrite Hnone.
  - destruct (truthy _); [|apply IH].
    destruct (from_dict _); simpl; [apply IH | done].
Qed.

Lemma stored_memory_set_index (st : state) (v i : json) :
  stored (memory_set _get_all_feeders_key v st) i = stored st i.
Proof.
  unfold stored, memory_get, memory_set. simpl.
  by rewrite lookup_insert_ne by (apply not_eq_sym, feeder_key_not_index).
Qed.

(** ** Listing *)

Lemma memory_get_set (k : string) (v : json) (st : state) :
  memory_get (memory_set k v st) k = v.
Proof. unfold memory_get, memory_set. simpl. by rewrite lookup_insert_eq. Qed.

Lemma index_ids_list (st : state) (ids : list json) :
  memory_get st _get_all_feeders_key = JList ids -> index_ids st = Some ids.
Proof. unfold index_ids. by intros ->. Qed.

Lemma get_registered_feeders_unfold (st : state) :
  get_registered_feeders st =
    (match index_ids st with
     | Some ids => feeders ← collect_feeders st ids []; Returns (success (JList feeders))
     | None => Raises TypeError
     end, st).
Proof.
  unfold get_registered_feeders, index_ids.
  by destruct (memory_get st _get_all_feeders_key).
Qed.

Lemma get_registered_feeders_readable (st : state) (ids : list json) :
  index_ids st = Some ids ->
  forallb (fun i => readable (stored st i)) ids = true ->
  get_registered_feeders st = (Returns (success (JList (report_of st ids))), st).
Proof.
  intros Hids Hok. rewrite get_registered_feeders_unfold, Hids.
  by rewrite (collect_feeders_readable st ids [] Hok).
Qed.

Lemma get_registered_feeders_listable (st : state) :
  listable st = true ->
  exists feeders, get_registered_feeders st = (Returns (success (JList feeders)), st).
Proof.
  unfold listable. destruct (index_ids st) as [ids|] eqn:Hids; [|discriminate].
  intros Hok. eexists. by apply get_registered_feeders_readable.
Qed.

Lemma get_registered_feeders_unlistable (st : state) :
  listable st = false ->
  exists e, get_registered_feeders st = (Raises e, st).
Proof.
  unfold listable. rewrite get_registered_feeders_unfold.
  destruct (index_ids st) as [ids|]; [|by eexists].
  intros Hbad. destruct (collect_feeders_unreadable st ids [] Hbad) as [e ->].
  by exists e.
Qed.





(** C8, amended: on a store whose [all_feeders] is a list that leads to
    readable values only, the report follows the index order: it is the ids
    of the index, filtered to those whose stored value is truthy, each
    mapped to the listed form of that value ([feeder_id], [name],
    [location] and [configuration], [None] when the record has none).  The
    listed form of a record made of exactly these four fields is the record
    itself. *)
Theorem get_registered_feeders_order (st : state) (ids : list json) :
  memory_get st _get_all_feeders_key = JList ids ->
  forallb (fun i => readable (stored st i)) ids = true ->
  get_registered_feeders st
    = (Returns (success (JList
         (map (fun i => listed (stored st i))
              (List.filter (fun i => truthy (stored st i)) ids)))), st)
  /\ (forall i kvs a n l, stored st i = JDict kvs ->
        dict_get "feeder_id" kvs = Some a -> dict_get "name" kvs = Some n ->
        dict_get "location" kvs = Some l ->
        listed (stored st i)
          = JDict [("feeder_id", a); ("name", n); ("location", l);
                   ("configuration", default JNull (dict_get "configuration" kvs))])
  /\ (forall i f, stored st i = to_dict f -> listed (stored st i) = stored st i).
Proof.
  intros Hidx Hok. apply index_ids_list in Hidx.
  split; [by apply get_registered_feeders_readable|]. split.
  - intros i kvs a n l Hst Ha Hn Hl. rewrite Hst. unfold listed.
    by rewrite (from_dict_present kvs a n l Ha Hn Hl).
  - intros i f ->. apply listed_to_dict.
Qed.

(** C5: when the index is a list that names an id without a
    [feeder:<id>] entry, the listing drops that id without a word and is
    not stopped by it: on every such store [get_registered_feeders] does
    what it does with the id taken out of the index, so the id adds no record
    to the report and raises nothing.  The call returns a success, with the
    report of the other ids, when the values they lead to are readable. *)
Theorem get_registered_feeders_skips_dangling
    (st : state) (pre post : list json) (i : json) :
  memory_get st _get_all_feeders_key = JList (pre ++ i :: post) ->
  _memory st !! _get_feeder_memory_key i = None ->
  (get_registered_feeders st).1
    = (get_registered_feeders
         (memory_set _get_all_feeders_key (JList (pre ++ post)) st)).1
  /\ (forallb (fun j => readable (stored st j)) (pre ++ post) = true ->
      get_registered_feeders st
        = (Returns (success (JList (report_of st (pre ++ post)))), st)).
Proof.
  intros Hidx Hnone.
  assert (Hskip : forall acc,
    collect_feeders st (pre ++ i :: post) acc = collect_feeders st (pre ++ post) acc)
    by (intros acc; by apply collect_feeders_skip).
  assert (Hids : index_ids st = Some (pre ++ i :: post))
    by by apply index_ids_list.
  split.
  - rewrite !get_registered_feeders_unfold, Hids.
    rewrite (index_ids_list _ (pre ++ post)) by apply memory_get_set.
    cbn [fst]. rewrite Hskip.
    by rewrite (collect_feeders_ext st (memory_set _get_all_feeders_key
                  (JList (pre ++ post)) st))
      by (intros j; symmetry; apply stored_memory_set_index).
  - intros Hok. rewrite get_registered_feeders_unfold, Hids, Hskip.
    by rewrite (collect_feeders_readable st _ [] Hok).
Qed.

(** ** Registering, then listing *)

Lemma listable_index_list (st : state) :
  listable st = true -> appendable st = true ->
  forallb (fun i => readable (stored st i)) (index_list st) = true.
Proof.
  unfold listable, appendable, index_ids, index_list.
  by destruct (memory_get st _get_all_feeders_key).
Qed.

Lemma stored_insert (m : gmap string json) (d : list (gmap string json))
    (k : string) (rec v : json) (j : json) :
  stored (mkState (<[_get_all_feeders_key := v]> (<[k := rec]> m)) d) j
    = if decide (k = _get_feeder_memory_key j) then rec
      else default JNull (m !! _get_feeder_memory_key j).
Proof.
  unfold stored, memory_get. simpl.
  rewrite lookup_insert_ne by (apply not_eq_sym, feeder_key_not_index).
  rewrite lookup_insert. by destruct (decide _).
Qed.

Lemma In_report_of (st : state) (ids : list json) (i : json) :
  In i ids -> truthy (stored st i) = true -> In (listed (stored st i)) (report_of st ids).
Proof.
  intros Hin Ht. unfold report_of.
  apply in_map_iff. exists i. split; [done|].
  apply filter_In. by split.
Qed.

(** C1, amended: on a store that is listable and whose index can take an
    id (it is missing, null or a list), registering an id that has no
    [feeder:<id>] entry returns a success, and the listing that follows
    returns a success whose report contains the record made of the id, name,
    location and configuration that were passed. *)
Theorem register_then_list (st : state) (i n l : string) (c : json) :
  _memory st !! _get_feeder_memory_key (JStr i) = None ->
  appendable st = true ->
  listable st = true ->
  let rec := JDict [("feeder_id", JStr i); ("name", JStr n);
                    ("location", JStr l); ("configuration", c)] in
  exists st1 feeders,
    register_feeder i n l c st = (Returns (success rec), st1)
    /\ get_registered_feeders st1 = (Returns (success (JList feeders)), st1)
    /\ In rec feeders.
Proof.
  intros Hfree Happ Hlist rec.
  pose proof (register_feeder_fresh st i n l c Hfree Happ) as Hreg.
  cbv zeta in Hreg. fold rec in Hreg.
  set (k := _get_feeder_memory_key (JStr i)) in *.
  set (ids := index_list st ++ [JStr i]) in *.
  set (st1 := mkState _ _) in Hreg.
  assert (Hst : forall j, stored st1 j
            = if decide (k = _get_feeder_memory_key j) then rec else stored st j)
    by (intros j; apply stored_insert).
  assert (Hids : index_ids st1 = Some ids).
  { apply index_ids_list. unfold memory_get, st1. simpl. by rewrite lookup_insert_eq. }
  assert (Hok : forallb (fun j => readable (stored st1 j)) ids = true).
  { apply forallb_forall. intros j Hj. rewrite Hst.
    destruct (decide _); [apply (readable_to_dict (mkFeeder _ _ _ _))|].
    apply in_app_or in Hj as [Hj | [<- | []]]; [|done].
    pose proof (listable_index_list st Hlist Happ) as Hall.
    by apply (proj1 (forallb_forall _ _) Hall). }
  exists st1, (report_of st1 ids). split; [done|]. split.
  - by apply get_registered_feeders_readable.
  - assert (Hrec : stored st1 (JStr i) = rec).
    { rewrite Hst. by destruct (decide _). }
    replace rec with (listed (stored st1 (JStr i)))
      by (rewrite Hrec; apply (listed_to_dict (mkFeeder _ _ _ _))).
    apply In_report_of; [apply in_or_app; right; by left|].
    by rewrite Hrec.
Qed.

(** ** Stores built by the registry *)

Lemma registry_inv_empty : registry_inv empty_state.
Proof.
  exists []. split; [left; split; [apply lookup_empty | done]|].
  split; [apply NoDup_nil_2 | apply Forall_nil_2].
Qed.

Lemma registry_inv_index (st : state) (names : list string) :
  _memory st !! _get_all_feeders_key = None /\ names = []
    \/ _memory st !! _get_all_feeders_key = Some (JList (map JStr names)) ->
  appendable st = true /\ index_list st = map JStr names.
Proof.
  unfold appendable, index_list, memory_get.
  by intros [[-> ->] | ->].
Qed.

Lemma registry_inv_register (st : state) (i n l : string) (c : json) :
  registry_inv st -> registry_inv (register_feeder i n l c st).2.
Proof.
  intros (names & Hidx & Hnodup & Hrecs).
  destruct (memory_has st (_get_feeder_memory_key (JStr i))) eqn:Hhas.
  { rewrite register_feeder_taken by done. by exists names. }
  apply memory_has_false in Hhas.
  destruct (registry_inv_index st names Hidx) as [Happ Hlist].
  rewrite (register_feeder_fresh st i n l c Hhas Happ). cbn [snd].
  assert (Hnew : i ∉ names).
  { intros Hin. rewrite Forall_forall in Hrecs.
    destruct (Hrecs i Hin) as [f Hf]. congruence. }
  exists (names ++ [i]). cbn [_memory]. split; [|split].
  - right. rewrite lookup_insert_eq, Hlist. by rewrite map_app.
  - apply NoDup_app. split; [done|]. split; [|apply NoDup_singleton].
    intros s Hs Hs'. apply list_elem_of_singleton in Hs'. by subst.
  - apply Forall_app. split.
    + eapply Forall_impl; [apply Hrecs|]. intros s [f Hf]. simpl.
      rewrite lookup_insert_ne by (apply not_eq_sym, feeder_key_not_index).
      rewrite lookup_insert. destruct (decide _); eauto.
    + apply Forall_singleton. eexists.
      rewrite lookup_insert_ne by (apply not_eq_sym, feeder_key_not_index).
      by rewrite lookup_insert_eq.
Qed.

Lemma get_registered_feeders_state (st : state) : (get_registered_feeders st).2 = st.
Proof. by rewrite get_registered_feeders_unfold. Qed.

Lemma get_feeder_health_state (i : string) (st : state) : (get_feeder_health i st).2 = st.
Proof. unfold get_feeder_health. by destruct (negb _). Qed.

Lemma get_feeder_alerts_state (i : string) (st : state) : (get_feeder_alerts i st).2 = st.
Proof. unfold get_feeder_alerts. by destruct (negb _). Qed.

Lemma registry_inv_exec (c : call) (st : state) :
  registry_inv st -> registry_inv (exec c st).2.
Proof.
  destruct c; simpl.
  - apply registry_inv_register.
  - by rewrite get_registered_feeders_state.
  - by rewrite get_feeder_health_state.
  - by rewrite get_feeder_alerts_state.
Qed.

Lemma registry_inv_run (cs : list call) (st : state) :
  registry_inv st -> registry_inv (run cs st).
Proof.
  revert st. induction cs as [|c cs IH]; intros st Hinv; simpl; [done|].
  by apply IH, registry_inv_exec.
Qed.

(** A store the registry built can be listed and can take a new id. *)
Lemma registry_inv_listable (st : state) :
  registry_inv st -> listable st = true /\ appendable st = true.
Proof.
  intros (names & Hidx & _ & Hrecs).
  destruct (registry_inv_index st names Hidx) as [Happ Hlist].
  split; [|done]. unfold listable.
  assert (Hids : index_ids st = Some (map JStr names)).
  { unfold index_ids, memory_get. by destruct Hidx as [[-> ->] | ->]. }
  rewrite Hids. apply forallb_forall. intros j Hj.
  apply in_map_iff in Hj as (s & <- & Hs). apply list_elem_of_In in Hs.
  rewrite Forall_forall in Hrecs. destruct (Hrecs s Hs) as [f Hf].
  unfold stored, memory_get. rewrite Hf. apply readable_to_dict.
Qed.

Lemma run_listable (cs : list call) :
  listable (run cs empty_state) = true /\ appendable (run cs empty_state) = true.
Proof. apply registry_inv_listable, registry_inv_run, registry_inv_empty. Qed.

(** C6: after any sequence of calls of the four registry operations on the
    fresh store, [all_feeders] is either not there yet or a list of ids with
    no duplicate. *)
Theorem index_has_no_duplicate (cs : list call) :
  exists names : list string,
    NoDup names
    /\ (_memory (run cs empty_state) !! _get_all_feeders_key = None
        \/ _memory (run cs empty_state) !! _get_all_feeders_key
             = Some (JList (map JStr names))).
Proof.
  destruct (registry_inv_run cs empty_state registry_inv_empty)
    as (names & Hidx & Hnodup & _).
  exists names. split; [done|]. destruct Hidx as [[? _] | ?]; auto.
Qed.

(** ** Further properties of registration *)

(** X1: when the id is free and [all_feeders] holds something that is
    neither null nor a list, [register_feeder] raises [AttributeError] after
    it has written and dumped the record: the feeder is stored, its id is
    not indexed, and the index is as before. *)
Theorem register_feeder_partial_write (st : state) (i n l : string) (c : json) :
  _memory st !! _get_feeder_memory_key (JStr i) = None ->
  appendable st = false ->
  let rec := to_dict (mkFeeder (JStr i) (JStr n) (JStr l) c) in
  let m1 := <[_get_feeder_memory_key (JStr i) := rec]> (_memory st) in
  register_feeder i n l c st = (Raises AttributeError, mkState m1 (dumps st ++ [m1]))
  /\ m1 !! _get_all_feeders_key = _memory st !! _get_all_feeders_key.
Proof.
  intros Hfree Happ rec m1.
  apply memory_has_false in Hfree as Hhas.
  split.
  - unfold register_feeder. rewrite Hhas.
    unfold appendable, memory_get in *. cbn [_save_memory memory_set _memory dumps].
    rewrite lookup_insert_ne by apply feeder_key_not_index.
    by destruct (_memory st !! _get_all_feeders_key) as [[]|].
  - subst m1. by rewrite lookup_insert_ne by apply feeder_key_not_index.
Qed.

(** X2: when the id is free and the index is missing, null or a list,
    [register_feeder] returns a success whose report is the record it
    stored, puts the id at the end of the index, and dumps the memory
    twice: first with the record alone, then with the index too. *)
Theorem register_feeder_success_effect (st : state) (i n l : string) (c : json) :
  _memory st !! _get_feeder_memory_key (JStr i) = None ->
  appendable st = true ->
  exists st1,
    register_feeder i n l c st
      = (Returns (success (JDict [("feeder_id", JStr i); ("name", JStr n);
                                  ("location", JStr l); ("configuration", c)])), st1)
    /\ _memory st1 !! _get_feeder_memory_key (JStr i)
       = Some (JDict [("feeder_id", JStr i); ("name", JStr n);
                      ("location", JStr l); ("configuration", c)])
    /\ _memory st1 !! _get_all_feeders_key = Some (JList (index_list st ++ [JStr i]))
    /\ dumps st1 = dumps st
         ++ [<[_get_feeder_memory_key (JStr i) :=
                 JDict [("feeder_id", JStr i); ("name", JStr n);
                        ("location", JStr l); ("configuration", c)]]> (_memory st);
             _memory st1].
Proof.
  intros Hfree Happ. eexists. split; [by apply register_feeder_fresh|].
  cbn [_memory dumps]. split; [|split].
  - rewrite lookup_insert_ne by (apply not_eq_sym, feeder_key_not_index).
    by rewrite lookup_insert_eq.
  - by rewrite lookup_insert_eq.
  - reflexivity.
Qed.

(** ** What a run keeps *)

Lemma exec_dumped (c : call) (st : state) :
  (exec c st).2 = st \/ dumped (exec c st).2.
Proof.
  destruct c as [i n l cfg| |i|i]; simpl.
  - unfold register_feeder. destruct (memory_has st _); [by left|]. right.
    destruct (append_method _ _); unfold dumped;
      cbn [snd _save_memory memory_set _memory dumps]; apply last_snoc.
  - left. apply get_registered_feeders_state.
  - left. apply get_feeder_health_state.
  - left. apply get_feeder_alerts_state.
Qed.

(** X3: no call leaves a change of the memory undumped.  After any
    sequence of calls the state is the one it started from, or the last
    dump is the memory as it stands; this holds on every path, the raising
    one of [register_feeder] included. *)
Theorem run_leaves_memory_dumped (cs : list call) (st : state) :
  run cs st = st \/ last (dumps (run cs st)) = Some (_memory (run cs st)).
Proof.
  revert st. induction cs as [|c cs IH]; intros st; simpl; [by left|].
  destruct (IH (exec c st).2) as [Hsame | Hd]; [|by right].
  rewrite Hsame. apply exec_dumped.
Qed.

(** X4: after [register_feeder] for an id, whether it returned a success,
    returned the already-exists error or raised, [get_feeder_health] for
    that id returns "Operational and healthy." and [get_feeder_alerts]
    returns a success; its report is the empty list when the store has no
    alerts for the id. *)
Theorem register_then_health (st : state) (i n l : string) (c : json) :
  let st1 := (register_feeder i n l c st).2 in
  get_feeder_health i st1 = (Returns (success (JStr "Operational and healthy.")), st1)
  /\ (exists alerts, get_feeder_alerts i st1 = (Returns (success alerts), st1))
  /\ (_memory st !! ("alerts:" +:+ i) = None ->
      get_feeder_alerts i st1 = (Returns (success (JList [])), st1)).
Proof.
  intros st1.
  pose proof (register_feeder_takes st i n l c) as Hhas. fold st1 in Hhas.
  unfold get_feeder_health, get_feeder_alerts. rewrite Hhas. cbn [negb].
  split; [done|]. split; [by eexists|].
  intros Hnone. unfold memory_get.
  assert (Hsame : _memory st1 !! ("alerts:" +:+ i) = None).
  { unfold st1. rewrite register_feeder_frame;
      [done | apply alerts_key_not_feeder | apply alerts_key_not_index]. }
  by rewrite Hsame.
Qed.

Lemma exec_keeps_entry (c : call) (st : state) (k : string) (v : json) :
  k <> _get_all_feeders_key ->
  _memory st !! k = Some v -> _memory (exec c st).2 !! k = Some v.
Proof.
  intros Hk Hv. destruct c as [i n l cfg| |i|i]; simpl.
  - destruct (decide (k = _get_feeder_memory_key (JStr i))) as [->|Hne].
    + rewrite register_feeder_taken; [done|]. apply memory_has_true. by eexists.
    + by rewrite register_feeder_frame.
  - by rewrite get_registered_feeders_state.
  - by rewrite get_feeder_health_state.
  - by rewrite get_feeder_alerts_state.
Qed.

(** X5: what is stored under a key other than [all_feeders] is never
    changed or removed: a feeder record, once written, and any other entry of
    the store survive every sequence of calls as they are. *)
Theorem run_keeps_entries (cs : list call) (st : state) (k : string) (v : json) :
  k <> _get_all_feeders_key ->
  _memory st !! k = Some v ->
  _memory (run cs st) !! k = Some v.
Proof.
  intros Hk. revert st. induction cs as [|c cs IH]; intros st Hv; simpl; [done|].
  by apply IH, exec_keeps_entry.
Qed.

Lemma exec_extends_index (c : call) (st : state) (ids : list json) :
  _memory st !! _get_all_feeders_key = Some (JList ids) ->
  exists more : list string,
    _memory (exec c st).2 !! _get_all_feeders_key = Some (JList (ids ++ map JStr more)).
Proof.
  intros Hidx. destruct c as [i n l cfg| |i|i]; simpl.
  - destruct (memory_has st (_get_feeder_memory_key (JStr i))) eqn:Hhas.
    + exists []. rewrite register_feeder_taken by done. by rewrite app_nil_r.
    + apply memory_has_false in Hhas. exists [i].
      assert (Happ : appendable st = true)
        by (unfold appendable, memory_get; by rewrite Hidx).
      rewrite (register_feeder_fresh st i n l cfg Hhas Happ). cbn [snd _memory].
      rewrite lookup_insert_eq. unfold index_list, memory_get. by rewrite Hidx.
  - exists []. by rewrite get_registered_feeders_state, app_nil_r.
  - exists []. by rewrite get_feeder_health_state, app_nil_r.
  - exists []. by rewrite get_feeder_alerts_state, app_nil_r.
Qed.

(** X6: an index that is a list only grows, and only at its end: after any
    sequence of calls it is the list it was, followed by the ids registered
    since, in the order of their registration. *)
Theorem run_extends_index (cs : list call) (st : state) (ids : list json) :
  _memory st !! _get_all_feeders_key = Some (JList ids) ->
  exists more : list string,
    _memory (run cs st) !! _get_all_feeders_key = Some (JList (ids ++ map JStr more)).
Proof.
  revert st ids. induction cs as [|c cs IH]; intros st ids Hidx; simpl.
  - exists []. by rewrite app_nil_r.
  - destruct (exec_extends_index c st ids Hidx) as [m1 H1].
    destruct (IH _ _ H1) as [m2 H2].
    exists (m1 ++ m2). by rewrite H2, map_app, app_assoc.
Qed.

Lemma exec_keeps_alerts (c : call) (st : state) (a : string) :
  _memory (exec c st).2 !! ("alerts:" +:+ a) = _memory st !! ("alerts:" +:+ a).
Proof.
  destruct c as [i n l cfg| |i|i]; simpl.
  - apply register_feeder_frame; [apply alerts_key_not_feeder | apply alerts_key_not_index].
  - by rewrite get_registered_feeders_state.
  - by rewrite get_feeder_health_state.
  - by rewrite get_feeder_alerts_state.
Qed.

Lemma run_keeps_alerts (cs : list call) (st : state) (a : string) :
  _memory (run cs st) !! ("alerts:" +:+ a) = _memory st !! ("alerts:" +:+ a).
Proof.
  revert st. induction cs as [|c cs IH]; intros st; simpl; [done|].
  by rewrite IH, exec_keeps_alerts.
Qed.

(** X7: no operation writes an [alerts:<id>] entry: after any sequence of
    calls each one is what it was, present or not.  On a store built from
    the fresh one, [get_feeder_alerts] therefore answers with the not-found
    error or with a success whose report is the empty list. *)
Theorem alerts_are_never_written (cs : list call) (st : state) (a : string) :
  _memory (run cs st) !! ("alerts:" +:+ a) = _memory st !! ("alerts:" +:+ a)
  /\ ((get_feeder_alerts a (run cs empty_state)).1 = Returns (error (not_found a))
      \/ (get_feeder_alerts a (run cs empty_state)).1 = Returns (success (JList []))).
Proof.
  split; [apply run_keeps_alerts|].
  unfold get_feeder_alerts. destruct (negb _); [by left|right]. cbn [fst].
  unfold memory_get. rewrite run_keeps_alerts. simpl. by rewrite lookup_empty.
Qed.

(** X8: on a store built from the fresh one no call raises: whatever the
    calls made so far, the next call of any of the four operations returns
    a result. *)
Theorem built_store_never_raises (cs : list call) (c : call) :
  exists r, (exec c (run cs empty_state)).1 = Returns r.
Proof.
  pose proof (registry_inv_run cs empty_state registry_inv_empty) as Hinv.
  destruct (registry_inv_listable _ Hinv) as [Hlist Happ].
  set (st := run cs empty_state) in *.
  destruct c as [i n l cfg| |i|i]; simpl.
  - destruct (memory_has st (_get_feeder_memory_key (JStr i))) eqn:Hhas.
    + rewrite register_feeder_taken by done. by eexists.
    + apply memory_has_false in Hhas.
      rewrite (register_feeder_fresh st i n l cfg Hhas Happ). by eexists.
  - destruct (get_registered_feeders_listable st Hlist) as [feeders ->]. by eexists.
  - unfold get_feeder_health. destruct (negb _); by eexists.
  - unfold get_feeder_alerts. destruct (negb _); by eexists.
Qed.

(** X9: what an operation returns is one of two shapes and nothing else.
    [register_feeder] returns the success carrying the record of its
    arguments or the already-exists error for its id; the listing returns a
    success carrying a list; [get_feeder_health] returns the fixed status
    text or the not-found error for its id; [get_feeder_alerts] returns a
    success or that same error. *)
Theorem results_have_two_shapes (c : call) (st : state) (r : json) :
  (exec c st).1 = Returns r ->
  match c with
  | Register i n l cfg =>
      r = success (JDict [("feeder_id", JStr i); ("name", JStr n);
                          ("location", JStr l); ("configuration", cfg)])
      \/ r = error ("Feeder ID '" +:+ i +:+ "' already exists.")
  | ListFeeders => exists feeders, r = success (JList feeders)
  | Health i =>
      r = success (JStr "Operational and healthy.")
      \/ r = error ("Feeder ID '" +:+ i +:+ "' not found.")
  | Alerts i =>
      (exists alerts, r = success alerts)
      \/ r = error ("Feeder ID '" +:+ i +:+ "' not found.")
  end.
Proof.
  destruct c as [i n l cfg| |i|i]; simpl.
  - unfold register_feeder. destruct (memory_has st _).
    + intros [= <-]. by right.
    + destruct (append_method _ _); [|discriminate]. intros [= <-]. by left.
  - rewrite get_registered_feeders_unfold. cbn [fst].
    destruct (index_ids st) as [ids|]; [|discriminate].
    destruct (collect_feeders st ids []) as [feeders|e]; [|discriminate].
    intros [= <-]. by eexists.
  - unfold get_feeder_health. destruct (negb _); intros [= <-]; auto.
  - unfold get_feeder_alerts. destruct (negb _); intros [= <-]; [by right|left].
    by eexists.
Qed.

(** ** Further properties of the listing *)

Lemma collect_feeders_shape (st : state) (ids acc out : list json) :
  collect_feeders st ids acc = Returns out ->
  exists new, out = acc ++ new /\ Forall four_fields new /\ length new <= length ids.
Proof.
  revert acc. induction ids as [|i ids IH]; intros acc; simpl.
  - intros [= <-]. exists []. by rewrite app_nil_r.
  - destruct (truthy _).
    + destruct (from_dict _) as [f|e]; simpl; [|discriminate].
      intros Hout. destruct (IH _ Hout) as (new & -> & Hnew & Hlen).
      exists (to_dict f :: new). rewrite <- app_assoc. split; [done|]. split.
      * apply Forall_cons. split; [|done]. destruct f. by repeat eexists.
      * simpl. lia.
    + intros Hout. destruct (IH _ Hout) as (new & -> & Hnew & Hlen).
      exists new. split; [done|]. split; [done|]. lia.
Qed.

(** X10: whenever the listing returns, on any store, its report is a list
    whose every element is a mapping of exactly [feeder_id], [name],
    [location] and [configuration], in this order, and it has no more
    elements than the index has ids: stored keys beyond the four never
    reach the caller. *)
Theorem listing_reports_four_fields (st : state) (r : json) :
  (get_registered_feeders st).1 = Returns r ->
  exists ids feeders,
    index_ids st = Some ids /\ r = success (JList feeders)
    /\ Forall four_fields feeders /\ length feeders <= length ids.
Proof.
  rewrite get_registered_feeders_unfold. cbn [fst].
  destruct (index_ids st) as [ids|]; [|discriminate].
  destruct (collect_feeders st ids []) as [feeders|e] eqn:Hcol; [|discriminate].
  intros [= <-].
  destruct (collect_feeders_shape st ids [] feeders Hcol) as (new & -> & Hnew & Hlen).
  by exists ids, new.
Qed.

Lemma collect_feeders_skip_falsy (st : state) (pre post acc : list json) (i : json) :
  truthy (stored st i) = false ->
  collect_feeders st (pre ++ i :: post) acc = collect_feeders st (pre ++ post) acc.
Proof.
  intros Hfalsy. revert acc.
  induction pre as [|j pre IH]; intros acc; simpl.
  - fold (stored st i). by rewrite Hfalsy.
  - destruct (truthy (memory_get st (_get_feeder_memory_key j))); [|apply IH].
    destruct (from_dict _); simpl; [apply IH | done].
Qed.

(** X11: a feeder whose stored value is falsy (null, false, zero, an empty
    text, list or mapping) is registered for [get_feeder_health], which
    reports it operational, and invisible to the listing, which does what
    it would do were the id not in the index. *)
Theorem falsy_record_is_healthy_and_unlisted
    (st : state) (pre post : list json) (i : string) (v : json) :
  memory_get st _get_all_feeders_key = JList (pre ++ JStr i :: post) ->
  _memory st !! _get_feeder_memory_key (JStr i) = Some v ->
  truthy v = false ->
  get_feeder_health i st = (Returns (success (JStr "Operational and healthy.")), st)
  /\ (get_registered_feeders st).1
     = (get_registered_feeders
          (memory_set _get_all_feeders_key (JList (pre ++ post)) st)).1.
Proof.
  intros Hidx Hv Hfalsy. split.
  - unfold get_feeder_health.
    assert (Hhas : memory_has st (_get_feeder_memory_key (JStr i)) = true)
      by (apply memory_has_true; by eexists).
    by rewrite Hhas.
  - rewrite !get_registered_feeders_unfold.
    rewrite (index_ids_list _ _ Hidx).
    rewrite (index_ids_list _ (pre ++ post)) by apply memory_get_set.
    cbn [fst]. rewrite collect_feeders_skip_falsy
      by (unfold stored, memory_get; by rewrite Hv).
    by rewrite (collect_feeders_ext st (memory_set _get_all_feeders_key
                  (JList (pre ++ post)) st))
      by (intros j; symmetry; apply stored_memory_set_index).
Qed.

(** ** Runs from the fresh store *)

Set Warnings "-clear-no-such-hyp".

Lemma holds_registrations_index (st : state) (regs : list (string * json)) :
  holds_registrations st regs ->
  appendable st = true /\ index_list st = map (fun r => JStr r.1) regs
  /\ index_ids st = Some (map (fun r => JStr r.1) regs).
Proof.
  intros ([[Hidx ->] | Hidx] & _).
  - unfold appendable, index_list, index_ids, memory_get. by rewrite Hidx.
  - unfold appendable, index_list, index_ids, memory_get. by rewrite Hidx.
Qed.

Lemma holds_registrations_report (st : state) (regs : list (string * json)) :
  Forall (fun r => _memory st !! _get_feeder_memory_key (JStr r.1) = Some r.2
                   /\ exists f, r.2 = to_dict f) regs ->
  forallb (fun i => readable (stored st i)) (map (fun r => JStr r.1) regs) = true
  /\ report_of st (map (fun r => JStr r.1) regs) = map snd regs.
Proof.
  unfold report_of. induction 1 as [|[i rec] regs [Hrec [f Hf]] _ [IH1 IH2]]; [done|].
  simpl in *. subst rec.
  assert (Hst : stored st (JStr i) = to_dict f)
    by (unfold stored, memory_get; by rewrite Hrec).
  rewrite !Hst, readable_to_dict, IH1, truthy_to_dict. split; [done|].
  simpl. by rewrite Hst, listed_to_dict, IH2.
Qed.

Lemma holds_registrations_listing (st : state) (regs : list (string * json)) :
  holds_registrations st regs ->
  get_registered_feeders st = (Returns (success (JList (map snd regs))), st).
Proof.
  intros Hh. destruct (holds_registrations_index st regs Hh) as (_ & _ & Hids).
  destruct Hh as (_ & _ & Hrecs & _).
  destruct (holds_registrations_report st regs Hrecs) as [Hok Hrep].
  rewrite (get_registered_feeders_readable st _ Hids Hok). by rewrite Hrep.
Qed.

Lemma holds_registrations_register
    (st : state) (regs : list (string * json)) (i n l : string) (c : json) :
  holds_registrations st regs -> ~ In i (map fst regs) ->
  holds_registrations (register_feeder i n l c st).2
    (regs ++ [(i, to_dict (mkFeeder (JStr i) (JStr n) (JStr l) c))]).
Proof.
  intros Hh Hnew.
  destruct (holds_registrations_index st regs Hh) as (Happ & Hlist & _).
  destruct Hh as (_ & Hnodup & Hrecs & Honly).
  assert (Hfree : _memory st !! _get_feeder_memory_key (JStr i) = None).
  { apply eq_None_not_Some. intros Hsome. by apply Hnew, Honly. }
  rewrite (register_feeder_fresh st i n l c Hfree Happ). cbn [snd].
  split; [|split; [|split]]; cbn [_memory].
  - right. rewrite lookup_insert_eq, Hlist. by rewrite map_app.
  - rewrite map_app. simpl. apply NoDup_app. split; [done|].
    split; [|apply NoDup_singleton].
    intros j Hj Hj'. apply list_elem_of_singleton in Hj'. subst j.
    by apply Hnew, list_elem_of_In.
  - apply Forall_app. split.
    + rewrite Forall_forall in Hrecs. apply Forall_forall. intros r Hr.
      destruct (Hrecs r Hr) as [Hrec Hf]. split; [|done].
      rewrite lookup_insert_ne by (apply not_eq_sym, feeder_key_not_index).
      rewrite lookup_insert_ne; [done|].
      intros Heq. apply feeder_key_inj in Heq. subst i.
      apply Hnew, in_map, list_elem_of_In, Hr.
    + apply Forall_singleton. simpl. split; [|by eexists].
      rewrite lookup_insert_ne by (apply not_eq_sym, feeder_key_not_index).
      by rewrite lookup_insert_eq.
  - intros j. rewrite lookup_insert_ne by (apply not_eq_sym, feeder_key_not_index).
    rewrite map_app. simpl. intros Hsome. apply in_or_app.
    destruct (decide (i = j)) as [->|Hne]; [right; by left|left].
    apply Honly. rewrite lookup_insert_ne in Hsome; [done|].
    intros Heq. by apply feeder_key_inj in Heq.
Qed.

Lemma holds_registrations_run
    (cs : list call) (st : state) (regs : list (string * json)) (seen : list string) :
  holds_registrations st regs ->
  (forall i, i ∈ seen <-> In i (map fst regs)) ->
  holds_registrations (run cs st) (regs ++ first_registrations seen cs).
Proof using py_repr.
  clear wide_lower. revert st regs seen.
  induction cs as [|c cs IH]; intros st regs seen Hh Hseen; simpl.
  - by rewrite app_nil_r.
  - destruct c as [i n l cfg| |i|i]; simpl.
    + destruct (bool_decide (i ∈ seen)) eqn:Hin.
      * apply bool_decide_eq_true in Hin. apply Hseen in Hin.
        assert (Hhas : memory_has st (_get_feeder_memory_key (JStr i)) = true).
        { apply memory_has_true. destruct Hh as (_ & _ & Hrecs & _).
          apply in_map_iff in Hin as ([j rec] & <- & Hr).
          rewrite Forall_forall in Hrecs.
          destruct (Hrecs _ (proj2 (list_elem_of_In _ _) Hr)) as [Hrec _].
          by eexists. }
        rewrite register_feeder_taken by done. by apply IH.
      * apply bool_decide_eq_false in Hin.
        assert (Hnew : ~ In i (map fst regs)) by (intros Hi; by apply Hin, Hseen).
        rewrite (app_assoc regs [_] _ : regs ++ _ :: _ = _).
        apply IH; [by apply holds_registrations_register|].
        intros j. rewrite map_app, in_app_iff, elem_of_cons, Hseen. simpl.
        naive_solver.
    + rewrite get_registered_feeders_state. by apply IH.
    + rewrite get_feeder_health_state. by apply IH.
    + rewrite get_feeder_alerts_state. by apply IH.
Qed.

Lemma holds_registrations_empty : holds_registrations empty_state [].
Proof.
  split; [left; split; [apply lookup_empty | done]|].
  split; [apply NoDup_nil_2|]. split; [apply Forall_nil_2|].
  intros i [v Hv]. simpl in Hv. by rewrite lookup_empty in Hv.
Qed.

Lemma holds_registrations_built (cs : list call) :
  holds_registrations (run cs empty_state) (first_registrations [] cs).
Proof.
  apply (holds_registrations_run cs empty_state [] []); [apply holds_registrations_empty|].
  intros i. simpl. split; [by intros ?%elem_of_nil | done].
Qed.

(** X12: on a store built from the fresh one, the listing returns the
    history of registrations: the records of the [register_feeder] calls
    that found their id free, in the order of the calls, each as it was
    written; a later registration of a taken id leaves no trace. *)
Theorem listing_is_registration_history (cs : list call) :
  get_registered_feeders (run cs empty_state)
    = (Returns (success (JList (map snd (first_registrations [] cs)))),
       run cs empty_state).
Proof. apply holds_registrations_listing, holds_registrations_built. Qed.

Lemma first_registrations_ids (seen : list string) (cs : list call) (i : string) :
  In i (map fst (first_registrations seen cs))
  <-> (i ∉ seen) /\ exists n l c, In (Register i n l c) cs.
Proof using.
  clear py_repr wide_lower.
  revert seen. induction cs as [|c cs IH]; intros seen; simpl.
  - naive_solver.
  - destruct c as [j n l cfg| |j|j]; try (rewrite IH; naive_solver).
    destruct (bool_decide (j ∈ seen)) eqn:Hin.
    + apply bool_decide_eq_true in Hin. rewrite IH. naive_solver.
    + apply bool_decide_eq_false in Hin. simpl. rewrite IH, elem_of_cons.
      destruct (decide (i = j)) as [->|Hne]; naive_solver.
Qed.

(** X13: on a store built from the fresh one, an id is known exactly when
    some [register_feeder] call was made for it: [get_feeder_health] then
    reports it operational, and answers with the not-found error for every
    other id.  What the store holds for the id is the record of the first
    such call. *)
Theorem health_iff_registered (cs : list call) (i : string) :
  _memory (run cs empty_state) !! _get_feeder_memory_key (JStr i)
    = (list_to_map (first_registrations [] cs) : gmap string json) !! i
  /\ ((exists n l c, In (Register i n l c) cs) ->
      get_feeder_health i (run cs empty_state)
        = (Returns (success (JStr "Operational and healthy.")), run cs empty_state))
  /\ ((forall n l c, ~ In (Register i n l c) cs) ->
      get_feeder_health i (run cs empty_state)
        = (Returns (error (not_found i)), run cs empty_state)).
Proof.
  pose proof (holds_registrations_built cs) as (_ & Hnodup & Hrecs & Honly).
  set (st := run cs empty_state) in *. set (regs := first_registrations [] cs) in *.
  assert (Hin : forall rec, (i, rec) ∈ regs ->
            _memory st !! _get_feeder_memory_key (JStr i) = Some rec).
  { intros rec Hr. rewrite Forall_forall in Hrecs. by destruct (Hrecs _ Hr). }
  assert (Hout : ~ In i (map fst regs) ->
            _memory st !! _get_feeder_memory_key (JStr i) = None).
  { intros Hno. apply eq_None_not_Some. intros Hsome. by apply Hno, Honly. }
  split; [|split].
  - destruct ((list_to_map regs : gmap string json) !! i) as [rec|] eqn:Hl.
    + apply Hin. by apply elem_of_list_to_map.
    + apply Hout. intros Hi. apply not_elem_of_list_to_map in Hl.
      by apply Hl, list_elem_of_In.
  - intros Hcall.
    assert (Hi : In i (map fst regs))
      by (apply first_registrations_ids; split; [apply not_elem_of_nil | done]).
    apply in_map_iff in Hi as ([j rec] & Hj & Hr). simpl in Hj. subst j.
    apply list_elem_of_In in Hr.
    unfold get_feeder_health.
    assert (Hhas : memory_has st (_get_feeder_memory_key (JStr i)) = true)
      by (apply memory_has_true; rewrite (Hin rec Hr); by eexists).
    by rewrite Hhas.
  - intros Hnocall.
    assert (Hi : ~ In i (map fst regs)).
    { intros Hi. apply first_registrations_ids in Hi as [_ (n & l & c & Hc)].
      by apply (Hnocall n l c). }
    unfold get_feeder_health.
    assert (Hhas : memory_has st (_get_feeder_memory_key (JStr i)) = false)
      by (apply memory_has_false; by apply Hout).
    by rewrite Hhas.
Qed.

Lemma dumps_run
    (cs : list call) (st : state) (regs : list (string * json)) (seen : list string) :
  holds_registrations st regs ->
  (forall i, i ∈ seen <-> In i (map fst regs)) ->
  length (dumps (run cs st))
    = length (dumps st) + 2 * length (first_registrations seen cs).
Proof using py_repr.
  clear wide_lower. revert st regs seen.
  induction cs as [|c cs IH]; intros st regs seen Hh Hseen; simpl; [lia|].
  destruct c as [i n l cfg| |i|i]; simpl.
  - destruct (bool_decide (i ∈ seen)) eqn:Hin.
    + apply bool_decide_eq_true in Hin. apply Hseen in Hin.
      assert (Hhas : memory_has st (_get_feeder_memory_key (JStr i)) = true).
      { apply memory_has_true. destruct Hh as (_ & _ & Hrecs & _).
        apply in_map_iff in Hin as ([j rec] & Hj & Hr). simpl in Hj. subst j.
        rewrite Forall_forall in Hrecs.
        destruct (Hrecs _ (proj2 (list_elem_of_In _ _) Hr)) as [Hrec _].
        by eexists. }
      rewrite register_feeder_taken by done. by apply (IH st regs).
    + apply bool_decide_eq_false in Hin.
      assert (Hnew : ~ In i (map fst regs)) by (intros Hi; by apply Hin, Hseen).
      pose proof (holds_registrations_register st regs i n l cfg Hh Hnew) as Hh1.
      rewrite (IH _ _ (i :: seen) Hh1).
      * destruct (holds_registrations_index st regs Hh) as (Happ & _ & _).
        destruct Hh as (_ & _ & _ & Honly).
        assert (Hfree : _memory st !! _get_feeder_memory_key (JStr i) = None).
        { apply eq_None_not_Some. intros Hsome. by apply Hnew, Honly. }
        rewrite (register_feeder_fresh st i n l cfg Hfree Happ).
        cbn [snd dumps]. rewrite !length_app. simpl. lia.
      * intros j. rewrite map_app, in_app_iff, elem_of_cons, Hseen. simpl.
        naive_solver.
  - rewrite get_registered_feeders_state. by apply (IH st regs).
  - rewrite get_feeder_health_state. by apply (IH st regs).
  - rewrite get_feeder_alerts_state. by apply (IH st regs).
Qed.

(** X14: on a store built from the fresh one the memory was dumped twice
    for each registration that found its id free, and for nothing else:
    rejected registrations and the three read operations dump nothing. *)
Theorem two_dumps_per_registration (cs : list call) :
  length (dumps (run cs empty_state)) = 2 * length (first_registrations [] cs).
Proof.
  rewrite (dumps_run cs empty_state [] []); [done | apply holds_registrations_empty|].
  intros i. simpl. split; [by intros ?%elem_of_nil | done].
Qed.

(** ** Further properties of the codec and of the keys *)

(** X15: [from_dict] returns exactly on a mapping that holds [feeder_id],
    [name] and [location], with the fields it found and [None] for a
    missing [configuration]; on anything that is not a mapping it raises
    [TypeError].  What it returns keeps no other key: re-encoded by
    [to_dict], a subscript by any key but the four raises [KeyError]. *)
Theorem from_dict_outcomes (data : json) :
  (forall f, from_dict data = Returns f <->
     exists kvs, data = JDict kvs
       /\ dict_get "feeder_id" kvs = Some (feeder_id f)
       /\ dict_get "name" kvs = Some (name f)
       /\ dict_get "location" kvs = Some (location f)
       /\ configuration f = default JNull (dict_get "configuration" kvs))
  /\ ((forall kvs, data <> JDict kvs) -> from_dict data = Raises TypeError)
  /\ (forall f k, from_dict data = Returns f ->
        ~ In k ["feeder_id"; "name"; "location"; "configuration"] ->
        subscript (to_dict f) k = Raises (KeyError k)).
Proof using.
  split; [|split].
  - intros f. split.
    + destruct data as [| | | | | |kvs]; try discriminate.
      unfold from_dict. simpl.
      destruct (dict_get "feeder_id" kvs) as [a|] eqn:Ha; [|discriminate].
      destruct (dict_get "name" kvs) as [n|] eqn:Hn; [|discriminate].
      destruct (dict_get "location" kvs) as [l|] eqn:Hl; [|discriminate].
      simpl. intros [= <-]. by exists kvs.
    + intros (kvs & -> & Ha & Hn & Hl & Hc).
      rewrite (from_dict_present kvs _ _ _ Ha Hn Hl), <- Hc. by destruct f.
  - intros Hno. destruct data as [| | | | | |kvs]; try done. by destruct (Hno kvs).
  - intros f k _ Hk. unfold subscript, to_dict. cbn [dict_get].
    destruct (decide (k = "feeder_id")) as [->|_]; [destruct Hk; by left|].
    destruct (decide (k = "name")) as [->|_]; [destruct Hk; by right; left|].
    destruct (decide (k = "location")) as [->|_];
      [destruct Hk; by right; right; left|].
    destruct (decide (k = "configuration")) as [->|_];
      [destruct Hk; by right; right; right; left|].
    reflexivity.
Qed.

(** X16: the keys of the store cannot clash: two ids have the same feeder
    key only when they are the same id, and no id, whatever its text, gives a
    feeder key equal to the index key or to an alerts key. *)
Theorem feeder_keys_are_separate (i j a : string) :
  (_get_feeder_memory_key (JStr i) = _get_feeder_memory_key (JStr j) <-> i = j)
  /\ _get_feeder_memory_key (JStr i) <> _get_all_feeders_key
  /\ _get_feeder_memory_key (JStr i) <> "alerts:" +:+ a
  /\ "alerts:" +:+ a <> _get_all_feeders_key.
Proof.
  split; [split; [apply feeder_key_inj | by intros ->]|].
  split; [apply feeder_key_not_index|].
  split; [apply not_eq_sym, alerts_key_not_feeder | apply alerts_key_not_index].
Qed.

(** ** Weather and time *)

Lemma ascii_lower_idem (c : Ascii.ascii) : ascii_lower (ascii_lower c) = ascii_lower c.
Proof using. by destruct c as [[] [] [] [] [] [] [] []]. Qed.

Lemma ascii_lower_is_ascii (c : Ascii.ascii) :
  is_ascii c = true -> is_ascii (ascii_lower c) = true.
Proof using. by destruct c as [[] [] [] [] [] [] [] []]. Qed.

Lemma str_lower_ascii (s : string) :
  forallb is_ascii (list_ascii_of_string s) = true ->
  str_lower s = string_of_list_ascii (map ascii_lower (list_ascii_of_string s)).
Proof. unfold str_lower. by intros ->. Qed.

Lemma str_lower_idem (s : string) :
  forallb is_ascii (list_ascii_of_string s) = true ->
  str_lower (str_lower s) = str_lower s.
Proof.
  intros Hs. rewrite (str_lower_ascii s Hs).
  set (l := list_ascii_of_string s) in *.
  assert (Hl : forallb is_ascii (map ascii_lower l) = true).
  { apply forallb_forall. intros c Hc. apply in_map_iff in Hc as (d & <- & Hd).
    apply ascii_lower_is_ascii. by apply (proj1 (forallb_forall _ _) Hs). }
  rewrite str_lower_ascii; rewrite list_ascii_of_string_of_list_ascii; [|done].
  f_equal. rewrite map_map. apply map_ext. intros c. apply ascii_lower_idem.
Qed.

(** X17: on an ASCII city name the two lookups ignore case and agree:
    [get_weather] reports exactly when the name, with [A] to [Z] lowered,
    is "new york"; lowering the name first changes nothing to that;
    [get_current_time] reports for the same names, quoting the name as it
    was typed before the clock's text.  For every other name both return
    their error, quoting the name as typed, and the clock is not read. *)
Theorem city_lookups_ignore_case (city t : string) :
  forallb is_ascii (list_ascii_of_string city) = true ->
  let lowered := string_of_list_ascii (map ascii_lower (list_ascii_of_string city)) in
  ((exists r, get_weather city = success r) <-> lowered = "new york")
  /\ ((exists r, get_weather lowered = success r) <-> lowered = "new york")
  /\ (lowered = "new york" ->
      get_current_time (Returns t) city
        = Returns (success (JStr ("The current time in " +:+ city +:+ " is " +:+ t))))
  /\ (lowered <> "new york" ->
      get_weather city
        = error ("Weather information for '" +:+ city +:+ "' is not available.")
      /\ forall now, get_current_time now city
           = Returns (error ("Sorry, I don't have timezone information for "
                             +:+ city +:+ "."))).
Proof.
  intros Hascii lowered.
  pose proof (str_lower_ascii city Hascii) as Hlow. fold lowered in Hlow.
  pose proof (str_lower_idem city Hascii) as Hidem. rewrite Hlow in Hidem.
  unfold get_weather, get_current_time. rewrite Hidem, Hlow.
  destruct (decide (lowered = "new york")) as [Heq|Hne].
  - rewrite !bool_decide_eq_true_2 by done.
    split; [split; [done | by eexists]|].
    split; [split; [done | by eexists]|].
    split; [done|]. intros Hne. by destruct Hne.
  - rewrite !bool_decide_eq_false_2 by done.
    split; [split; [by intros [r [=]] | done]|].
    split; [split; [by intros [r [=]] | done]|].
    split; [done|]. by intros _.
Qed.

End Registry.

(** ** Runs on the sample stores *)

(** The scenario of the specification: register [f1], register it again,
    list, ask for the health of [f1] and of an unknown id. *)
Example scenario_f1 (repr : json -> string) :
  register_feeder repr "f1" "Feeder One" "Loc A" f1_config empty_state
    = (Returns (success f1_record), f1_state)
  /\ register_feeder repr "f1" "Feeder One" "Loc A" f1_config f1_state
    = (Returns (error "Feeder ID 'f1' already exists."), f1_state)
  /\ get_registered_feeders repr f1_state
    = (Returns (success (JList [f1_record])), f1_state)
  /\ get_feeder_health repr "f1" f1_state
    = (Returns (success (JStr "Operational and healthy.")), f1_state)
  /\ get_feeder_health repr "unknown" f1_state
    = (Returns (error "Feeder ID 'unknown' not found."), f1_state).
Proof. repeat split; reflexivity. Qed.


Lemma ghost_legacy_listing_raises (repr : json -> string) :
  get_registered_feeders repr ghost_legacy_state
    = (Raises (KeyError "location"), ghost_legacy_state).
Proof. reflexivity. Qed.

Lemma bare_listing (repr : json -> string) :
  get_registered_feeders repr bare_state
    = (Returns (success (JList
         [JDict [("feeder_id", JStr "a"); ("name", JStr "Feeder A");
                 ("location", JStr "Loc A"); ("configuration", JNull)]])),
       bare_state).
Proof. reflexivity. Qed.

Lemma legacy_register_then_list (repr : json -> string) :
  (register_feeder repr "b" "Feeder B" "Loc B" JNull legacy_state).1
    = Returns (success (JDict [("feeder_id", JStr "b"); ("name", JStr "Feeder B");
                               ("location", JStr "Loc B"); ("configuration", JNull)]))
  /\ (get_registered_feeders repr
       (register_feeder repr "b" "Feeder B" "Loc B" JNull legacy_state).2).1
    = Raises (KeyError "location").
Proof. split; reflexivity. Qed.

(** C1, as stated, fails on a store that holds an unreadable record: [b] is
    not registered in [legacy_state], its registration succeeds, and the
    listing that follows raises [KeyError] instead of returning. *)
Lemma register_then_list_counterexample :
  _memory legacy_state !! "feeder:b" = None
  /\ (register_feeder plain_repr "b" "Feeder B" "Loc B" JNull legacy_state).1
    = Returns (success (JDict [("feeder_id", JStr "b"); ("name", JStr "Feeder B");
                               ("location", JStr "Loc B"); ("configuration", JNull)]))
  /\ (get_registered_feeders plain_repr
       (register_feeder plain_repr "b" "Feeder B" "Loc B" JNull legacy_state).2).1
    = Raises (KeyError "location").
Proof. split; [reflexivity | apply legacy_register_then_list]. Qed.

Lemma register_then_list_witness :
  exists st1 feeders,
    register_feeder plain_repr "f2" "Feeder Two" "Loc B" JNull f1_state
      = (Returns (success (JDict [("feeder_id", JStr "f2"); ("name", JStr "Feeder Two");
                                  ("location", JStr "Loc B"); ("configuration", JNull)])),
         st1)
    /\ get_registered_feeders plain_repr st1 = (Returns (success (JList feeders)), st1)
    /\ In (JDict [("feeder_id", JStr "f2"); ("name", JStr "Feeder Two");
                  ("location", JStr "Loc B"); ("configuration", JNull)]) feeders.
Proof.
  apply (register_then_list plain_repr f1_state "f2" "Feeder Two" "Loc B" JNull);
    reflexivity.
Defined.

Lemma register_feeder_rejects_duplicate_witness :
  register_feeder plain_repr "f1" "Another" "Elsewhere" JNull f1_state
    = (Returns (error (already_exists "f1")), f1_state)
  /\ already_exists "f1" = "Feeder ID 'f1' already exists.".
Proof.
  apply (proj1 (register_feeder_rejects_duplicate
                  plain_repr f1_state "f1" "Another" "Elsewhere" JNull) f1_record).
  reflexivity.
Defined.

Lemma unregistered_feeder_not_found_witness :
  get_feeder_health plain_repr "unknown" f1_state
    = (Returns (error (not_found "unknown")), f1_state)
  /\ get_feeder_alerts plain_repr "unknown" f1_state
    = (Returns (error (not_found "unknown")), f1_state)
  /\ not_found "unknown" = "Feeder ID 'unknown' not found.".
Proof.
  apply (unregistered_feeder_not_found plain_repr f1_state "unknown").
  reflexivity.
Defined.



Lemma get_registered_feeders_skips_dangling_witness :
  (get_registered_feeders plain_repr ghost_state).1
    = (get_registered_feeders plain_repr
         (memory_set _get_all_feeders_key (JList [JStr "f1"]) ghost_state)).1
  /\ (forallb (fun j => readable (stored plain_repr ghost_state j)) [JStr "f1"] = true ->
      get_registered_feeders plain_repr ghost_state
        = (Returns (success (JList (report_of plain_repr ghost_state [JStr "f1"]))),
           ghost_state)).
Proof.
  apply (get_registered_feeders_skips_dangling
           plain_repr ghost_state [] [JStr "f1"] (JStr "ghost"));
    reflexivity.
Defined.

Lemma from_dict_contract_witness :
  exists k, from_dict legacy_record = Raises (KeyError k)
            /\ In k ["feeder_id"; "name"; "location"]
            /\ dict_get k [("feeder_id", JStr "a"); ("name", JStr "Feeder A")] = None.
Proof.
  apply (proj1 (from_dict_contract
                  [("feeder_id", JStr "a"); ("name", JStr "Feeder A")]
                  (mkFeeder JNull JNull JNull JNull))).
  right. right. reflexivity.
Defined.

(** C8, as stated, fails on [bare_state]: the record stored for [a] has
    three fields, and the record reported for it has four. *)
Lemma get_registered_feeders_order_counterexample :
  _memory bare_state !! "feeder:a" = Some bare_record
  /\ get_registered_feeders plain_repr bare_state
    = (Returns (success (JList
         [JDict [("feeder_id", JStr "a"); ("name", JStr "Feeder A");
                 ("location", JStr "Loc A"); ("configuration", JNull)]])),
       bare_state)
  /\ JDict [("feeder_id", JStr "a"); ("name", JStr "Feeder A");
            ("location", JStr "Loc A"); ("configuration", JNull)] <> bare_record.
Proof.
  split; [reflexivity|]. split; [apply bare_listing | discriminate].
Qed.

Lemma get_registered_feeders_order_witness :
  get_registered_feeders plain_repr bare_state
    = (Returns (success (JList
         (map (fun i => listed (stored plain_repr bare_state i))
              (List.filter (fun i => truthy (stored plain_repr bare_state i))
                 [JStr "a"])))), bare_state).
Proof.
  apply (proj1 (get_registered_feeders_order plain_repr bare_state [JStr "a"]
                  eq_refl eq_refl)).
Defined.

Lemma register_feeder_touches_two_keys_witness :
  _memory f1_state !! "alerts:f1" = _memory empty_state !! "alerts:f1".
Proof.
  apply (proj2 (proj2 (register_feeder_touches_two_keys plain_repr empty_state f1_state
                         "f1" "Feeder One" "Loc A" f1_config f1_record eq_refl))).
Defined.

(** ** Further runs on the sample stores *)

Lemma register_feeder_partial_write_witness :
  register_feeder plain_repr "f1" "Feeder One" "Loc A" f1_config odd_index_state
    = (Raises AttributeError,
       mkState (<["feeder:f1" := f1_record]> (_memory odd_index_state))
               [<["feeder:f1" := f1_record]> (_memory odd_index_state)])
  /\ (<["feeder:f1" := f1_record]> (_memory odd_index_state)) !! "all_feeders"
     = _memory odd_index_state !! "all_feeders".
Proof.
  apply (register_feeder_partial_write plain_repr odd_index_state
           "f1" "Feeder One" "Loc A" f1_config); reflexivity.
Defined.

Lemma register_feeder_success_effect_witness :
  exists st1,
    register_feeder plain_repr "f2" "Feeder Two" "Loc B" JNull f1_state
      = (Returns (success (JDict [("feeder_id", JStr "f2"); ("name", JStr "Feeder Two");
                                  ("location", JStr "Loc B"); ("configuration", JNull)])),
         st1)
    /\ _memory st1 !! "feeder:f2"
       = Some (JDict [("feeder_id", JStr "f2"); ("name", JStr "Feeder Two");
                      ("location", JStr "Loc B"); ("configuration", JNull)])
    /\ _memory st1 !! "all_feeders" = Some (JList [JStr "f1"; JStr "f2"])
    /\ dumps st1 = dumps f1_state
         ++ [<["feeder:f2" :=
                 JDict [("feeder_id", JStr "f2"); ("name", JStr "Feeder Two");
                        ("location", JStr "Loc B"); ("configuration", JNull)]]>
               (_memory f1_state);
             _memory st1].
Proof.
  apply (register_feeder_success_effect plain_repr f1_state
           "f2" "Feeder Two" "Loc B" JNull); reflexivity.
Defined.

Lemma run_keeps_entries_witness :
  _memory (run plain_repr [Register "f1" "Another" "Elsewhere" JNull;
                           Register "f2" "Feeder Two" "Loc B" JNull] f1_state)
    !! "feeder:f1" = Some f1_record.
Proof.
  apply (run_keeps_entries plain_repr
           [Register "f1" "Another" "Elsewhere" JNull;
            Register "f2" "Feeder Two" "Loc B" JNull] f1_state "feeder:f1" f1_record);
    [discriminate | reflexivity].
Defined.

Lemma run_extends_index_witness :
  exists more : list string,
    _memory (run plain_repr [Register "f2" "Feeder Two" "Loc B" JNull; ListFeeders] f1_state)
      !! "all_feeders" = Some (JList ([JStr "f1"] ++ map JStr more)).
Proof.
  apply (run_extends_index plain_repr
           [Register "f2" "Feeder Two" "Loc B" JNull; ListFeeders] f1_state [JStr "f1"]).
  reflexivity.
Defined.

Lemma results_have_two_shapes_witness :
  JDict [("status", JStr "success"); ("report", JStr "Operational and healthy.")]
    = success (JStr "Operational and healthy.")
  \/ JDict [("status", JStr "success"); ("report", JStr "Operational and healthy.")]
    = error ("Feeder ID '" +:+ "f1" +:+ "' not found.").
Proof.
  apply (results_have_two_shapes plain_repr (Health "f1") f1_state). reflexivity.
Defined.

Lemma listing_reports_four_fields_witness :
  exists ids feeders,
    index_ids bare_state = Some ids
    /\ success (JList [JDict [("feeder_id", JStr "a"); ("name", JStr "Feeder A");
                              ("location", JStr "Loc A"); ("configuration", JNull)]])
       = success (JList feeders)
    /\ Forall four_fields feeders /\ length feeders <= length ids.
Proof.
  apply (listing_reports_four_fields plain_repr bare_state). reflexivity.
Defined.

Lemma falsy_record_is_healthy_and_unlisted_witness :
  get_feeder_health plain_repr "z" hollow_state
    = (Returns (success (JStr "Operational and healthy.")), hollow_state)
  /\ (get_registered_feeders plain_repr hollow_state).1
     = (get_registered_feeders plain_repr
          (memory_set _get_all_feeders_key (JList []) hollow_state)).1.
Proof.
  apply (falsy_record_is_healthy_and_unlisted plain_repr hollow_state [] [] "z" (JDict []));
    reflexivity.
Defined.

Lemma from_dict_outcomes_witness : from_dict (JStr "f1") = Raises TypeError.
Proof.
  apply (proj1 (proj2 (from_dict_outcomes (JStr "f1")))). discriminate.
Defined.

Lemma city_lookups_ignore_case_witness :
  get_current_time plain_lower (Returns "2025-05-17 09:30:00 EDT-0400") "New York"
    = Returns (success (JStr
        ("The current time in " +:+ "New York" +:+ " is " +:+ "2025-05-17 09:30:00 EDT-0400"))).
Proof.
  apply (proj1 (proj2 (proj2 (city_lookups_ignore_case plain_lower
           "New York" "2025-05-17 09:30:00 EDT-0400" eq_refl)))).
  reflexivity.
Defined.

(** A text index is walked character by character, whatever the bytes of a
    character: the listing of a store whose index is the text [é] looks up
    [feeder:é]. *)
Example characters_of_text :
  characters "aé€😀" = ["a"; "é"; "€"; "😀"]
  /\ iterate (JStr "né") = Returns [JStr "n"; JStr "é"].
Proof. split; reflexivity. Qed.

Example text_index_listing (repr : json -> string) :
  get_registered_feeders repr
    (mkState (<["all_feeders" := JStr "é"]> (<["feeder:é" := f1_record]> ∅)) [])
  = (Returns (success (JList [f1_record])),
     mkState (<["all_feeders" := JStr "é"]> (<["feeder:é" := f1_record]> ∅)) []).
Proof. reflexivity. Qed.
